(** * Lead intake: request schema validation, persistence, response

    A shallow embedding of the lead-capture endpoint of [main.py]
    ([LeadRequest], [create_lead]) and of the collection schema [Lead] of
    [schemas.py], together with the properties of the intake flow.

    The request body is the Python value obtained from the JSON payload.
    A model class is embedded as the list of its field declarations, in
    source order; validating a payload against a class follows the lax-mode
    rules of the validation framework for the five annotations that occur
    in the two files ([str], [EmailStr], [int], [List[...]],
    [Optional[...]]). *)

From Stdlib Require Import ZArith Ascii String List.
From Stdlib Require Import Floats.SpecFloat.
From stdpp Require Import gmap strings pretty list fin_maps.

Local Open Scope string_scope.
Local Open Scope Z_scope.
Local Set Warnings "-register-all".

(** ** Python values *)

(** The values a decoded JSON body is made of. A [float] is kept as its
    exact dyadic value (or infinity / NaN, which the JSON decoder accepts). *)
Inductive pyval : Type :=
  | PNone
  | PBool (b : bool)
  | PInt (z : Z)
  | PFloat (f : spec_float)
  | PStr (s : string)
  | PList (l : list pyval)
  | PDict (d : gmap string pyval).

(** A dumped model / stored document: keys in insertion order. *)
Definition document := list (string * pyval).

Definition is_finite (f : spec_float) : bool :=
  match f with
  | S754_nan | S754_infinity _ => false
  | S754_zero _ | S754_finite _ _ _ => true
  end.

(** Whether a value can be written as JSON by a response: the encoder of
    responses refuses NaN and the infinities, wherever they sit. *)
Fixpoint json_compliant (v : pyval) : bool :=
  match v with
  | PFloat f => is_finite f
  | PList l => forallb json_compliant l
  | PDict d => map_fold (fun _ x acc => json_compliant x && acc) true d
  | PNone | PBool _ | PInt _ | PStr _ => true
  end.

(** ** Validation errors *)

Inductive error_type : Type :=
  | missing
  | string_type
  | int_type
  | int_parsing
  | int_from_float
  | finite_number
  | int_parsing_size
  | list_type
  | value_error
  | greater_than_equal
  | model_attributes_type.

Inductive loc_item : Type :=
  | Key (k : string)
  | Index (i : nat).

(** One line of a [ValidationError]: where, and which rule. *)
Record error : Type := Error { err_loc : list loc_item; err_type : error_type }.

Inductive result (A : Type) : Type :=
  | Ok (a : A)
  | Err (es : list error).
Arguments Ok {A} a.
Arguments Err {A} es.

Definition fail {A} (t : error_type) : result A := Err [Error [] t].

(** Errors raised below a field or a list item carry its key in front. *)
Definition under (i : loc_item) (e : error) : error :=
  Error (i :: err_loc e) (err_type e).

Definition within {A} (i : loc_item) (r : result A) : result A :=
  match r with
  | Ok a => Ok a
  | Err es => Err (under i <$> es)
  end.

(** Validation does not stop at the first failure: every item is checked
    and all errors are reported, in order. *)
Fixpoint collect {A} (rs : list (result A)) : result (list A) :=
  match rs with
  | [] => Ok []
  | r :: rs' =>
      match r, collect rs' with
      | Ok a, Ok l => Ok (a :: l)
      | Ok _, Err es => Err es
      | Err e, Ok _ => Err e
      | Err e, Err es => Err (e ++ es)
      end
  end.

(** ** Field annotations and model classes *)

Inductive annotation : Type :=
  | Str
  | EmailStr
  | Int (ge : option Z)
  | List_ (item : annotation)
  | Optional (inner : annotation).

(** A field declaration [fname: annot = default]; [fdefault = None] is a
    required field ([Field(...)] or no right-hand side). *)
Record field : Type := Field {
  fname : string;
  annot : annotation;
  fdefault : option pyval
}.

(** A field declared [Optional[...] = None]. *)
Definition is_optional (fd : field) : bool :=
  match annot fd, fdefault fd with
  | Optional _, Some PNone => true
  | _, _ => false
  end.

(** [main.py], class [LeadRequest]. *)
Definition LeadRequest : list field := [
  Field "name" Str None;
  Field "email" EmailStr None;
  Field "phone" (Optional Str) (Some PNone);
  Field "company" (Optional Str) (Some PNone);
  Field "location" (Optional Str) (Some PNone);
  Field "unit_types" (Optional (List_ Str)) (Some PNone);
  Field "units_count" (Optional (Int None)) (Some PNone);
  Field "capacity_tonnage" (Optional Str) (Some PNone);
  Field "preferred_interval" (Optional Str) (Some PNone);
  Field "pain_points" (Optional (List_ Str)) (Some PNone);
  Field "message" (Optional Str) (Some PNone)
].

(** [schemas.py], class [Lead] (collection "lead"). *)
Definition Lead : list field := [
  Field "name" Str None;
  Field "email" EmailStr None;
  Field "phone" (Optional Str) (Some PNone);
  Field "company" (Optional Str) (Some PNone);
  Field "location" (Optional Str) (Some PNone);
  Field "unit_types" (Optional (List_ Str)) (Some PNone);
  Field "units_count" (Optional (Int (Some 0))) (Some PNone);
  Field "capacity_tonnage" (Optional Str) (Some PNone);
  Field "preferred_interval" (Optional Str) (Some PNone);
  Field "pain_points" (Optional (List_ Str)) (Some PNone);
  Field "message" (Optional Str) (Some PNone)
].

(** A validated model object: the values of its fields, in class order. *)
Record instance : Type := Instance { values : list pyval }.

(** [obj.model_dump()]: the dict of field name to value. *)
Definition model_dump (cls : list field) (obj : instance) : document :=
  zip (fname <$> cls) (values obj).

(** ** Numeric coercion *)

(** A float is accepted for an [int] field when it is finite, has no
    fractional part and lies strictly between -2^63 and 2^63. *)
Definition float_as_int (f : spec_float) : Z + error_type :=
  match f with
  | S754_nan | S754_infinity _ => inr finite_number
  | S754_zero _ => inl 0
  | S754_finite sgn m e =>
      let signed (n : Z) := if sgn then - n else n in
      let in_range (n : Z) : Z + error_type :=
        if (- 2 ^ 63 <? n) && (n <? 2 ^ 63) then inl n else inr int_parsing_size in
      if 0 <=? e then in_range (signed (Z.pos m * 2 ^ e))
      else if Z.pos m mod 2 ^ (- e) =? 0 then in_range (signed (Z.pos m / 2 ^ (- e)))
      else inr int_from_float
  end.

Section Validation.

(** The two string checkers the framework delegates to, kept abstract:
    the address checker behind [EmailStr], which yields the normalised
    address of a well-formed one, and the reading of a string as an
    integer, which yields the integer or the error the string is answered
    with (not an integer, or too long to be read). *)
Variable validate_email : string -> option string.
Variable str_as_int : string -> Z + error_type.

(** Lax [int]: an int as it is, a bool as 0 or 1, a float or a string
    when it denotes an integer. *)
Definition validate_int (v : pyval) : Z + error_type :=
  match v with
  | PInt z => inl z
  | PBool b => inl (if b then 1 else 0)
  | PFloat f => float_as_int f
  | PStr s => str_as_int s
  | PNone | PList _ | PDict _ => inr int_type
  end.

Fixpoint validate (t : annotation) (v : pyval) : result pyval :=
  match t with
  | Str =>
      match v with
      | PStr s => Ok (PStr s)
      | _ => fail string_type
      end
  | EmailStr =>
      match v with
      | PStr s =>
          match validate_email s with
          | Some normalized => Ok (PStr normalized)
          | None => fail value_error
          end
      | _ => fail string_type
      end
  | Int ge =>
      match validate_int v with
      | inl z =>
          match ge with
          | Some bound => if bound <=? z then Ok (PInt z) else fail greater_than_equal
          | None => Ok (PInt z)
          end
      | inr e => fail e
      end
  | List_ item =>
      match v with
      | PList l =>
          match collect (imap (fun i x => within (Index i) (validate item x)) l) with
          | Ok l' => Ok (PList l')
          | Err es => Err es
          end
      | _ => fail list_type
      end
  | Optional inner =>
      match v with
      | PNone => Ok PNone
      | _ => validate inner v
      end
  end.

(** A field is validated from the payload's entry under its name; when
    the key is absent the default is taken as it is, and a field without
    default is reported missing. *)
Definition validate_field (fd : field) (entry : option pyval) : result pyval :=
  match entry with
  | Some v => within (Key (fname fd)) (validate (annot fd) v)
  | None =>
      match fdefault fd with
      | Some d => Ok d
      | None => Err [Error [Key (fname fd)] missing]
      end
  end.

(** Only the declared fields are looked up; any other key of the payload
    is never consulted. *)
Definition validate_fields (cls : list field) (payload : gmap string pyval)
  : result (list pyval) :=
  collect ((fun fd => validate_field fd (payload !! fname fd)) <$> cls).

Definition model_validate (cls : list field) (body : pyval) : result instance :=
  match body with
  | PDict payload =>
      match validate_fields cls payload with
      | Ok vs => Ok (Instance vs)
      | Err es => Err es
      end
  | _ => fail model_attributes_type
  end.

(** Every error carries the input it was raised on, and the 422 response
    echoes it: the value that failed, the item of a list that failed, the
    whole payload for a missing field. [echoed] lists these inputs, one
    per error and in the order of the errors. *)
Fixpoint echoed (t : annotation) (v : pyval) : list pyval :=
  match t with
  | Str | EmailStr | Int _ =>
      match validate t v with
      | Ok _ => []
      | Err _ => [v]
      end
  | List_ item =>
      match v with
      | PList l => mjoin (echoed item <$> l)
      | _ => [v]
      end
  | Optional inner =>
      match v with
      | PNone => []
      | _ => echoed inner v
      end
  end.

Definition echoed_field (fd : field) (payload : gmap string pyval) : list pyval :=
  match payload !! fname fd with
  | Some v => echoed (annot fd) v
  | None =>
      match fdefault fd with
      | Some _ => []
      | None => [PDict payload]
      end
  end.

Definition echoed_fields (cls : list field) (payload : gmap string pyval)
  : list pyval :=
  mjoin ((fun fd => echoed_field fd payload) <$> cls).

End Validation.

(** ** The store interface and handler programs *)

(** The operations [main.py] performs on the database module. *)
Inductive store_op : Type :=
  | create_document (collection_name : string) (data : document)
  | list_collection_names.

(** How a store call ends: with a value, or by raising an [Exception]
    whose [str(e)] is [msg]. *)
Inductive outcome : Type :=
  | Returned (v : pyval)
  | Raised (msg : string).

(** A handler is a tree of store calls ending in its answer. *)
Inductive prog (A : Type) : Type :=
  | Ret (a : A)
  | Do (op : store_op) (k : outcome -> prog A).
Arguments Ret {A} a.
Arguments Do {A} op k.

Inductive content : Type :=
  | JSONObject (d : document)
  | ValidationDetail (errors : list error)
  | PlainText (s : string).

Record response : Type := Response { status_code : Z; body : content }.

(** [raise HTTPException(status_code, detail)] as the response it becomes. *)
Definition HTTPException (status_code : Z) (detail : string) : response :=
  Response status_code (JSONObject [("detail", PStr detail)]).

(** [main.py], [create_lead]. *)
Definition create_lead (lead : instance) : prog response :=
  Do (create_document "lead" (model_dump LeadRequest lead)) (fun o =>
    match o with
    | Returned lead_id =>
        Ret (Response 200 (JSONObject [("status", PStr "success"); ("id", lead_id)]))
    | Raised e =>
        Ret (HTTPException 500 e)
    end).

(** The body parameter of the route: it is required, so a null body is
    reported missing before the class is consulted; any other body is
    validated against [LeadRequest]. *)
Definition validate_body (validate_email : string -> option string)
    (str_as_int : string -> Z + error_type) (request_body : pyval) : result instance :=
  match request_body with
  | PNone => fail missing
  | _ => model_validate validate_email str_as_int LeadRequest request_body
  end.

(** The inputs echoed by the errors of a rejected body: of a null body
    [None], of a body that is no object the body itself. *)
Definition echoed_body (validate_email : string -> option string)
    (str_as_int : string -> Z + error_type) (request_body : pyval) : list pyval :=
  match request_body with
  | PNone => [PNone]
  | PDict payload => echoed_fields validate_email str_as_int LeadRequest payload
  | _ => [request_body]
  end.

(** The answer to a rejected body: status 422 with the error list, each
    location under "body". The response echoes the input of every error,
    and when one of them cannot be written as JSON, rendering it fails and
    the answer is the server's plain 500. *)
Definition rejection (es : list error) (inputs : list pyval) : response :=
  if forallb json_compliant inputs
  then Response 422 (ValidationDetail (under (Key "body") <$> es))
  else Response 500 (PlainText "Internal Server Error").

(** [POST /api/leads]: the handler runs on the validated body; a body that
    fails validation never reaches it. *)
Definition post_api_leads (validate_email : string -> option string)
    (str_as_int : string -> Z + error_type) (request_body : pyval) : prog response :=
  match validate_body validate_email str_as_int request_body with
  | Ok lead => create_lead lead
  | Err es =>
      Ret (rejection es (echoed_body validate_email str_as_int request_body))
  end.

(** Running a program against a store: every call is logged and answered
    by the store, which may change its state. *)
Section Run.

Context {store : Type}.
Variable exec : store_op -> store -> outcome * store.

Fixpoint run {A} (p : prog A) (s : store) (log : list store_op)
  : A * store * list store_op :=
  match p with
  | Ret a => (a, s, log)
  | Do op k =>
      let '(o, s') := exec op s in
      run (k o) s' (log ++ [op])
  end.

End Run.

(** The number of store calls along every path of a program. *)
Inductive calls_exactly {A} : nat -> prog A -> Prop :=
  | calls_ret a : calls_exactly 0 (Ret a)
  | calls_do n op k : (forall o, calls_exactly n (k o)) -> calls_exactly (S n) (Do op k).

(** ** A concrete store and concrete string checkers

    Used to execute the model on concrete requests. *)

(** A document store that numbers its records: the documents inserted so
    far with their collection; an unreachable store raises. *)
Record mem_store : Type := MemStore {
  reachable : bool;
  records : list (string * document)
}.

Definition mem_exec (op : store_op) (s : mem_store) : outcome * mem_store :=
  if reachable s then
    match op with
    | create_document c d =>
        (Returned (PStr (pretty (length (records s)))),
         MemStore true (records s ++ [(c, d)]))
    | list_collection_names =>
        (Returned (PList (PStr <$> remove_dups (fst <$> records s))), s)
    end
  else (Raised "Database not available", s).

Definition is_lower_alnum (c : ascii) : bool :=
  let n := nat_of_ascii c in
  ((97 <=? n) && (n <=? 122) || (48 <=? n) && (n <=? 57))%nat.

Definition is_digit (c : ascii) : bool :=
  let n := nat_of_ascii c in ((48 <=? n) && (n <=? 57))%nat.

(** Splits at the first occurrence of [sep]. *)
Fixpoint split_at (sep : ascii) (s : list ascii) : option (list ascii * list ascii) :=
  match s with
  | [] => None
  | c :: s' =>
      if Ascii.eqb c sep then Some ([], s')
      else match split_at sep s' with
           | Some (l, r) => Some (c :: l, r)
           | None => None
           end
  end.

Definition plain_label (l : list ascii) : bool :=
  negb (Nat.eqb (length l) 0) && forallb is_lower_alnum l.

(** A small address checker: [local@label.label] over lower-case letters
    and digits, returned unchanged. *)
Definition plain_email (s : string) : option string :=
  match split_at "@" (list_ascii_of_string s) with
  | Some (local, domain) =>
      match split_at "." domain with
      | Some (d1, d2) =>
          if plain_label local && plain_label d1 && plain_label d2
          then Some s else None
      | None => None
      end
  | None => None
  end.

(** A small integer reader: a non-empty run of at most 4300 decimal
    digits. *)
Definition plain_int (s : string) : Z + error_type :=
  let cs := list_ascii_of_string s in
  if (4300 <? length cs)%nat then inr int_parsing_size
  else if negb (Nat.eqb (length cs) 0) && forallb is_digit cs
  then inl (fold_left (fun acc c => 10 * acc + Z.of_nat (nat_of_ascii c - 48)) cs 0)
  else inr int_parsing.


(** The payload without the keys that the class does not declare. *)
Definition declared_only (cls : list field) (m : gmap string pyval)
    : gmap string pyval :=
  filter (fun kv => kv.1 ∈ (fname <$> cls)) m.

(** The payloads of the end-to-end scenarios. *)
Definition jane_payload : gmap string pyval :=
  {[ "name" := PStr "Jane Doe"; "email" := PStr "jane@example.com" ]}.

Definition empty_name_payload : gmap string pyval :=
  {[ "name" := PStr ""; "email" := PStr "jane@example.com" ]}.

Definition not_an_email_payload : gmap string pyval :=
  {[ "name" := PStr "Jane Doe"; "email" := PStr "not-an-email" ]}.

Definition negative_units_payload : gmap string pyval :=
  <["units_count" := PInt (-1)]> jane_payload.

(** A store that cannot reach its server: every call raises the driver's
    message. *)
Definition connection_error : string :=
  "ServerSelectionTimeoutError: mongo-prod-01.internal.example.net:27017: [Errno 111] Connection refused, Timeout: 30s, Topology Description: <TopologyDescription id: 65f1c0aa9d1e, topology_type: Unknown, servers: [<ServerDescription ('mongo-prod-01.internal.example.net', 27017) server_type: Unknown>]>".

Definition unreachable_exec (op : store_op) (s : unit) : outcome * unit :=
  (Raised connection_error, s).

(** A payload without [name] and with NaN under a key that no class
    declares. *)
Definition nan_tracked_payload : gmap string pyval :=
  {[ "email" := PStr "jane@example.com"; "utm_source" := PFloat S754_nan ]}.

(** The first scenario's payload with a key that no class declares. *)
Definition tracked_payload : gmap string pyval :=
  <["utm_source" := PStr "newsletter"]> jane_payload.

(** The first scenario's payload with a tag list whose second item is a
    number. *)
Definition mixed_tags_payload : gmap string pyval :=
  <["unit_types" := PList [PStr "Split"; PInt 3]]> jane_payload.

Definition jane_values : list pyval :=
  [PStr "Jane Doe"; PStr "jane@example.com";
   PNone; PNone; PNone; PNone; PNone; PNone; PNone; PNone; PNone].

(** ** The diagnostic endpoint *)

(** A Python [str] as its code points: a slice [s[:n]] keeps the first [n]
    of them. *)
Definition text := list N.

Definition lit (s : string) : text := N_of_ascii <$> list_ascii_of_string s.

Definition check_mark : text := [0x2705%N].
Definition cross_mark : text := [0x274C%N].
Definition warning_sign : text := [0x26A0%N; 0xFE0F%N].

(** What the response of [/test] holds: [None], a [str], a list of
    names. *)
Inductive diag : Type :=
  | DNone
  | DStr (t : text)
  | DList (l : list text).

(** An exception as the handlers of [/test] tell them apart: an
    [ImportError], or another [Exception] with its text [str(e)]. *)
Inductive raised : Type :=
  | ImportError
  | OtherException (msg : text).

(** The database object [db]: what [hasattr(db, 'name')] and reading
    [db.name] do, each a value or an exception that is not swallowed, and
    what [db.list_collection_names()] does, the names or the [str(e)] of
    the [Exception] it raises. *)
Record database : Type := Database {
  hasattr_name : bool + raised;
  name : diag + raised;
  collection_names : list text + text
}.

(** [db.name if hasattr(db, 'name') else <default>]. *)
Definition name_or (db : database) (default : diag) : diag + raised :=
  match hasattr_name db with
  | inl true => name db
  | inl false => inl default
  | inr ex => inr ex
  end.

(** How [from database import db] ends: with [ImportError], with another
    [Exception] of text [msg], or with [db], which may be [None]. *)
Inductive import_db : Type :=
  | ModuleMissing
  | ImportRaises (msg : text)
  | Imported (db : option database).

(** The truth value of [os.getenv(...)]: set, and not the empty string. *)
Definition truthy (v : option text) : bool :=
  match v with
  | Some (_ :: _) => true
  | Some [] | None => false
  end.

(** The two outer [except] clauses of [test_database]. *)
Definition outer_except (ex : raised) (response : gmap string diag)
    : gmap string diag :=
  match ex with
  | ImportError =>
      <["database" :=
          DStr (cross_mark
                ++ lit " Database module not found (run enable-database first)")%list]>
        response
  | OtherException e =>
      <["database" := DStr (cross_mark ++ lit " Error: " ++ take 50 e)%list]> response
  end.

(** [main.py], [test_database]; the import and the process environment
    are its two inputs. *)
Definition test_database (from_database_import_db : import_db)
    (getenv : string -> option text) : gmap string diag :=
  let response : gmap string diag :=
    <["collections" := DList []]>
    (<["connection_status" := DStr (lit "Not Connected")]>
    (<["database_name" := DNone]>
    (<["database_url" := DNone]>
    (<["database" := DStr (cross_mark ++ lit " Not Available")%list]>
    (<["backend" := DStr (check_mark ++ lit " Running")%list]> ∅))))) in
  let response :=
    match from_database_import_db with
    | Imported (Some db) =>
        let response :=
          <["database" := DStr (check_mark ++ lit " Available")%list]> response in
        let response :=
          <["database_url" := DStr (check_mark ++ lit " Configured")%list]> response in
        match name_or db (DStr (check_mark ++ lit " Connected")%list) with
        | inl database_name =>
            let response := <["database_name" := database_name]> response in
            let response :=
              <["connection_status" := DStr (lit "Connected")]> response in
            match collection_names db with
            | inl collections =>
                let response :=
                  <["collections" := DList (take 10 collections)]> response in
                <["database" :=
                    DStr (check_mark ++ lit " Connected & Working")%list]> response
            | inr e =>
                <["database" :=
                    DStr (warning_sign ++ lit "  Connected but Error: "
                          ++ take 50 e)%list]> response
            end
        | inr ex => outer_except ex response
        end
    | Imported None =>
        <["database" :=
            DStr (warning_sign ++ lit "  Available but not initialized")%list]> response
    | ModuleMissing => outer_except ImportError response
    | ImportRaises e => outer_except (OtherException e) response
    end in
  let response :=
    <["database_url" :=
        DStr (if truthy (getenv "DATABASE_URL")
              then (check_mark ++ lit " Set")%list
              else (cross_mark ++ lit " Not Set")%list)]>
      response in
  <["database_name" :=
      DStr (if truthy (getenv "DATABASE_NAME")
            then (check_mark ++ lit " Set")%list
              else (cross_mark ++ lit " Not Set")%list)]>
    response.

(** A database with twelve collections, and the same database when
    reading its name raises. *)
Definition twelve_names : list text :=
  lit <$> ["audit"; "contract"; "invoice"; "lead"; "note"; "offer"; "quote";
           "site"; "task"; "unit"; "user"; "visit"].

Definition working_db : database :=
  Database (inl true) (inl (DStr (lit "maintenance"))) (inl twelve_names).

Definition nameless_db : database :=
  Database (inl true) (inr (OtherException (lit "name is not available")))
    (inl twelve_names).

(** ** The shape of validated values *)

Definition is_str (v : pyval) : bool :=
  match v with PStr _ => true | _ => false end.

(** Whether a value has the Python type an annotation announces: [str],
    [int] within its bound, a [list] of conforming items, or [None] where
    the annotation is [Optional]. *)
Fixpoint conforms (t : annotation) (v : pyval) : bool :=
  match t with
  | Str | EmailStr => is_str v
  | Int ge =>
      match v with
      | PInt z => match ge with Some bound => bound <=? z | None => true end
      | _ => false
      end
  | List_ item =>
      match v with
      | PList l => forallb (conforms item) l
      | _ => false
      end
  | Optional inner =>
      match v with
      | PNone => true
      | _ => conforms inner v
      end
  end.

(** [obj.k]: the attribute of a model object of class [cls]. *)
Definition getattr (cls : list field) (obj : instance) (k : string)
    : option pyval :=
  snd <$> List.find (fun kv => String.eqb kv.1 k) (model_dump cls obj).

(** The errors a result carries, none when it is a value. *)
Definition errors_of {A} (r : result A) : list error :=
  match r with
  | Ok _ => []
  | Err es => es
  end.

(** Annotations made of [str] only: [str], lists of them, optional ones. *)
Fixpoint textual (t : annotation) : bool :=
  match t with
  | Str => true
  | List_ item => textual item
  | Optional inner => textual inner
  | EmailStr | Int _ => false
  end.

(** Annotations without a list: their errors sit at the value itself. *)
Fixpoint flat (t : annotation) : bool :=
  match t with
  | Str | EmailStr | Int _ => true
  | Optional inner => flat inner
  | List_ _ => false
  end.

(** ** General facts about validation *)

Lemma collect_length {A} (rs : list (result A)) l :
  collect rs = Ok l -> length l = length rs.
Proof.
  revert l. induction rs as [|r rs IH]; intros l; simpl.
  - by intros [= <-].
  - destruct r as [a|e], (collect rs) as [l'|es]; intros [= <-].
    simpl. f_equal. by apply IH.
Qed.

(** Every reported error comes from one of the failed items. *)
Lemma collect_err_elem {A} (rs : list (result A)) es e :
  collect rs = Err es -> e ∈ es -> exists es', Err es' ∈ rs /\ e ∈ es'.
Proof.
  revert es. induction rs as [|r rs IH]; intros es; simpl; [done|].
  destruct r as [a|e1], (collect rs) as [l'|es2]; intros [= <-] Hin.
  - destruct (IH _ eq_refl Hin) as (es' & ? & ?). exists es'. split; [by right|done].
  - exists e1. split; [by left|done].
  - apply elem_of_app in Hin as [Hin|Hin].
    + exists e1. split; [by left|done].
    + destruct (IH _ eq_refl Hin) as (es' & ? & ?). exists es'. split; [by right|done].
Qed.

(** A failed item fails the whole, and none of its errors is dropped. *)
Lemma collect_err_intro {A} (rs : list (result A)) es' :
  Err es' ∈ rs -> exists es, collect rs = Err es /\ es' ⊆ es.
Proof.
  induction rs as [|r rs IH]; intros Hin; [by apply elem_of_nil in Hin|].
  apply elem_of_cons in Hin as [<-|Hin]; simpl.
  - destruct (collect rs) as [l|es2]; eexists; split; try done.
    intros x Hx. apply elem_of_app. by left.
  - destruct (IH Hin) as (es & -> & Hsub).
    destruct r as [a|e1]; eexists; split; try done.
    intros x Hx. apply elem_of_app. right. by apply Hsub.
Qed.

Lemma collect_ok_all {A} (rs : list (result A)) l :
  collect rs = Ok l -> rs = Ok <$> l.
Proof.
  revert l. induction rs as [|r rs IH]; intros l; simpl.
  - by intros [= <-].
  - destruct r as [a|e], (collect rs) as [l'|es]; intros [= <-].
    simpl. f_equal. by apply IH.
Qed.

Section ValidationFacts.

Variable validate_email : string -> option string.
Variable str_as_int : string -> Z + error_type.

Local Abbreviation check_field := (validate_field validate_email str_as_int).
Local Abbreviation check_fields := (validate_fields validate_email str_as_int).

Lemma validate_fields_cons fd cls (m : gmap string pyval) :
  check_fields (fd :: cls) m =
    match check_field fd (m !! fname fd), check_fields cls m with
    | Ok v, Ok vs => Ok (v :: vs)
    | Ok _, Err es => Err es
    | Err e, Ok _ => Err e
    | Err e, Err es => Err (e ++ es)%list
    end.
Proof. reflexivity. Qed.

(** The result depends on the payload only through the declared keys. *)
Lemma validate_fields_ext cls (m1 m2 : gmap string pyval) :
  (forall fd, fd ∈ cls -> m1 !! fname fd = m2 !! fname fd) ->
  check_fields cls m1 = check_fields cls m2.
Proof.
  intros Hext. unfold validate_fields. f_equal.
  apply list_eq_Forall2, Forall2_fmap, Forall_Forall2_diag, Forall_forall.
  intros fd Hfd. by rewrite Hext.
Qed.

Lemma validate_fields_length cls (m : gmap string pyval) vs :
  check_fields cls m = Ok vs -> length vs = length cls.
Proof.
  intros H. apply collect_length in H. by rewrite length_fmap in H.
Qed.

(** An accepted object holds, field for field, the validated entries. *)
Lemma validate_fields_values cls (m : gmap string pyval) vs :
  check_fields cls m = Ok vs ->
  Forall2 (fun fd v => check_field fd (m !! fname fd) = Ok v) cls vs.
Proof.
  intros H. apply collect_ok_all in H. revert vs H.
  induction cls as [|fd cls IH]; intros [|v vs]; simpl; try done.
  intros [= Hv Hvs]. constructor; [done|by apply IH].
Qed.

(** The dump of an accepted object has exactly the declared keys. *)
Lemma model_dump_keys cls (m : gmap string pyval) vs :
  check_fields cls m = Ok vs ->
  (model_dump cls (Instance vs)).*1 = fname <$> cls.
Proof.
  intros H. apply validate_fields_length in H. unfold model_dump. simpl.
  apply fst_zip. rewrite length_fmap. lia.
Qed.

(** Errors are located under the name of a declared field. *)
Lemma validate_fields_err_loc cls (m : gmap string pyval) es e :
  check_fields cls m = Err es -> e ∈ es ->
  exists fd, fd ∈ cls /\ head (err_loc e) = Some (Key (fname fd)).
Proof.
  intros H Hin. destruct (collect_err_elem _ _ _ H Hin) as (es' & Hes' & He).
  apply list_elem_of_fmap in Hes' as (fd & Hfd & Hcls).
  exists fd. split; [done|].
  unfold validate_field in Hfd.
  destruct (m !! fname fd) as [v|].
  - destruct (validate _ _ _ _) as [?|es0]; simpl in Hfd; [done|].
    injection Hfd as ->. apply list_elem_of_fmap in He as (e0 & -> & _). done.
  - destruct (fdefault fd); [done|]. injection Hfd as ->.
    apply list_elem_of_singleton in He as ->. done.
Qed.

(** A failing declared field fails the payload with all its errors. *)
Lemma validate_fields_field_err cls (m : gmap string pyval) fd es' :
  fd ∈ cls -> check_field fd (m !! fname fd) = Err es' ->
  exists es, check_fields cls m = Err es /\ es' ⊆ es.
Proof.
  intros Hfd Herr. apply collect_err_intro.
  apply list_elem_of_fmap. exists fd. by rewrite Herr.
Qed.



Lemma declared_only_lookup cls (m : gmap string pyval) fd :
  fd ∈ cls -> declared_only cls m !! fname fd = m !! fname fd.
Proof.
  intros Hfd. unfold declared_only.
  destruct (m !! fname fd) as [v|] eqn:Hm.
  - apply map_lookup_filter_Some_2; [done|]. cbn.
    apply list_elem_of_fmap. by exists fd.
  - apply map_lookup_filter_None_2. by left.
Qed.

Lemma validate_fields_declared_only cls (m : gmap string pyval) :
  check_fields cls (declared_only cls m) = check_fields cls m.
Proof.
  apply validate_fields_ext. intros fd Hfd. by apply declared_only_lookup.
Qed.

Lemma validate_fields_extra_key cls (m : gmap string pyval) k v :
  k ∉ (fname <$> cls) ->
  check_fields cls (<[k := v]> m) = check_fields cls m.
Proof.
  intros Hk. apply validate_fields_ext. intros fd Hfd.
  apply lookup_insert_ne. intros ->. apply Hk, list_elem_of_fmap. by exists fd.
Qed.

End ValidationFacts.

(** ** What a rejection echoes *)




Section EchoFacts.

Variable validate_email : string -> option string.
Variable str_as_int : string -> Z + error_type.

Local Abbreviation echo := (echoed validate_email str_as_int).
Local Abbreviation echo_field := (echoed_field validate_email str_as_int).
Local Abbreviation echo_fields := (echoed_fields validate_email str_as_int).





End EchoFacts.

(** ** The lead intake flow *)

Lemma run_create_lead {store} (exec : store_op -> store -> outcome * store)
    lead s log :
  run exec (create_lead lead) s log =
    (match (exec (create_document "lead" (model_dump LeadRequest lead)) s).1 with
     | Returned lead_id =>
         Response 200 (JSONObject [("status", PStr "success"); ("id", lead_id)])
     | Raised e => HTTPException 500 e
     end,
     (exec (create_document "lead" (model_dump LeadRequest lead)) s).2,
     (log ++ [create_document "lead" (model_dump LeadRequest lead)])%list).
Proof.
  simpl. destruct (exec _ s) as [[lead_id|e] s']; reflexivity.
Qed.

Section LeadIntake.

Variable validate_email : string -> option string.
Variable str_as_int : string -> Z + error_type.

Local Abbreviation check_fields := (validate_fields validate_email str_as_int).
Local Abbreviation check_model := (model_validate validate_email str_as_int).
Local Abbreviation check_body := (validate_body validate_email str_as_int).
Local Abbreviation endpoint := (post_api_leads validate_email str_as_int).

Lemma validate_body_dict (m : gmap string pyval) :
  check_body (PDict m) = check_model LeadRequest (PDict m).
Proof. reflexivity. Qed.

Lemma post_api_leads_accepted request_body lead :
  check_body request_body = Ok lead -> endpoint request_body = create_lead lead.
Proof. unfold post_api_leads. by intros ->. Qed.



Lemma tail_LeadRequest_not_name fd :
  fd ∈ tail LeadRequest -> fname fd <> "name".
Proof.
  simpl. intros H.
  repeat (apply elem_of_cons in H as [->|H]; [done|]).
  by apply elem_of_nil in H.
Qed.

(** C1 (as amended): a payload whose [name] is the empty string passes
    the check of [name], which only asks for a string. The payload is
    accepted or rejected by its other ten fields alone; no reported error
    lies under [name]; and when it is accepted, the handler is run on the
    lead whose name is the empty string. *)
Theorem empty_name_passes_name_check (m : gmap string pyval) :
  m !! "name" = Some (PStr "") ->
  check_model LeadRequest (PDict m) =
    match check_fields (tail LeadRequest) m with
    | Ok vs => Ok (Instance (PStr "" :: vs))
    | Err es => Err es
    end
  /\ (forall es e, check_model LeadRequest (PDict m) = Err es -> e ∈ es ->
        head (err_loc e) <> Some (Key "name"))
  /\ (forall lead, check_model LeadRequest (PDict m) = Ok lead ->
        head (model_dump LeadRequest lead) = Some ("name", PStr "")
        /\ endpoint (PDict m) = create_lead lead).
Proof.
  intros Hname.
  assert (check_model LeadRequest (PDict m) =
    match check_fields (tail LeadRequest) m with
    | Ok vs => Ok (Instance (PStr "" :: vs))
    | Err es => Err es
    end) as Heq.
  { unfold model_validate.
    change LeadRequest with (Field "name" Str None :: tail LeadRequest) at 1.
    rewrite validate_fields_cons. cbn [fname]. rewrite Hname. cbn [validate_field].
    cbn [annot validate within].
    by destruct (check_fields (tail LeadRequest) m). }
  split; [done|]. rewrite Heq. split.
  - intros es e Hes He [= Hloc].
    destruct (check_fields (tail LeadRequest) m) as [|es'] eqn:Ht; [done|].
    injection Hes as ->.
    destruct (validate_fields_err_loc _ _ _ _ _ _ Ht He) as (fd & Hfd & Hhd).
    apply tail_LeadRequest_not_name in Hfd. congruence.
  - intros lead Hok. split.
    + destruct (check_fields (tail LeadRequest) m); [|done]. by injection Hok as <-.
    + apply post_api_leads_accepted. by rewrite validate_body_dict, Heq.
Qed.


(** C4: when the payload passes validation, the handler makes the call
    [create_document("lead", lead.model_dump())], whose document has the
    declared keys and, field for field, the validated entries of the
    payload; when that call returns an identifier the response is
    [{status: "success", id: <identifier>}] with status 200. *)
Theorem accepted_lead_inserted_and_acknowledged (m : gmap string pyval) lead :
  check_model LeadRequest (PDict m) = Ok lead ->
  let data := model_dump LeadRequest lead in
  data.*1 = fname <$> LeadRequest
  /\ Forall2 (fun fd kv =>
        kv.1 = fname fd /\
        validate_field validate_email str_as_int fd (m !! fname fd) = Ok kv.2)
      LeadRequest data
  /\ forall store (exec : store_op -> store -> outcome * store) s log lead_id s',
       exec (create_document "lead" data) s = (Returned lead_id, s') ->
       run exec (endpoint (PDict m)) s log =
         (Response 200 (JSONObject [("status", PStr "success"); ("id", lead_id)]),
          s', (log ++ [create_document "lead" data])%list).
Proof.
  intros Hok data. pose proof Hok as Hvalid. rewrite <- validate_body_dict in Hvalid.
  unfold model_validate in Hok.
  destruct (check_fields LeadRequest m) as [vs|] eqn:Hvs; [|done].
  injection Hok as <-. split; [|split].
  - by eapply model_dump_keys.
  - apply validate_fields_values in Hvs. subst data. unfold model_dump.
    cbn [values]. clear Hvalid. induction Hvs as [|fd v cls vs Hv Hvs IH]; cbn.
    + constructor.
    + constructor; [done|apply IH].
  - intros store exec s log lead_id s' Hexec.
    rewrite (post_api_leads_accepted _ _ Hvalid), run_create_lead.
    unfold data in *. by rewrite Hexec.
Qed.

(** When the payload passes validation and the insert raises, the
    response has status 500 and the body [{detail: <message>}], where the
    message is the whole text of the raised exception, whatever its
    length. *)
Lemma persistence_failure_is_500 (m : gmap string pyval) lead :
  check_model LeadRequest (PDict m) = Ok lead ->
  forall store (exec : store_op -> store -> outcome * store) s log msg s',
    exec (create_document "lead" (model_dump LeadRequest lead)) s = (Raised msg, s') ->
    exists resp,
      run exec (endpoint (PDict m)) s log =
        (resp, s', (log ++ [create_document "lead" (model_dump LeadRequest lead)])%list)
      /\ status_code resp = 500
      /\ body resp = JSONObject [("detail", PStr msg)].
Proof.
  intros Hok store exec s log msg s' Hexec. rewrite <- validate_body_dict in Hok.
  rewrite (post_api_leads_accepted _ _ Hok), run_create_lead, Hexec.
  by eexists.
Qed.

(** [LeadRequest.units_count] takes any integer, of either sign. *)
Lemma units_count_unbounded (z : Z) :
  validate_field validate_email str_as_int
    (Field "units_count" (Optional (Int None)) (Some PNone)) (Some (PInt z)) =
  Ok (PInt z).
Proof. reflexivity. Qed.

(** A [units_count] that does not read as an integer fails the payload,
    with the error of the integer check located at the field. *)
Lemma units_count_not_int_rejected (m : gmap string pyval) v e :
  m !! "units_count" = Some v -> v <> PNone ->
  validate_int str_as_int v = inr e ->
  exists es, check_model LeadRequest (PDict m) = Err es
             /\ Error [Key "units_count"] e ∈ es.
Proof.
  intros Hv Hnone Hint.
  destruct (validate_fields_field_err validate_email str_as_int LeadRequest m
              (Field "units_count" (Optional (Int None)) (Some PNone))
              [Error [Key "units_count"] e]) as (es & Hes & Hsub).
  - do 6 right. left.
  - unfold validate_field. cbn [fname annot]. rewrite Hv.
    destruct v; try done; cbn [validate]; rewrite Hint; reflexivity.
  - exists es. unfold model_validate. rewrite Hes. split; [done|].
    apply Hsub. by left.
Qed.


(** C7: the payload [{name: "Jane Doe", email: "jane@example.com"}] is
    accepted with every optional field set to null; the insert is made
    with that document, and when the store returns an identifier the
    response is [{status: "success", id: <identifier>}]. *)
Theorem jane_doe_scenario :
  validate_email "jane@example.com" = Some "jane@example.com" ->
  check_model LeadRequest (PDict jane_payload) = Ok (Instance jane_values)
  /\ Forall (fun kv => kv.2 = PNone)
       (drop 2 (model_dump LeadRequest (Instance jane_values)))
  /\ forall store (exec : store_op -> store -> outcome * store) s log lead_id s',
       exec (create_document "lead" (model_dump LeadRequest (Instance jane_values))) s
         = (Returned lead_id, s') ->
       run exec (endpoint (PDict jane_payload)) s log =
         (Response 200 (JSONObject [("status", PStr "success"); ("id", lead_id)]),
          s',
          (log ++ [create_document "lead"
                     (model_dump LeadRequest (Instance jane_values))])%list).
Proof.
  intros Hmail.
  assert (check_model LeadRequest (PDict jane_payload) = Ok (Instance jane_values))
    as Hok.
  { unfold model_validate, LeadRequest.
    rewrite !validate_fields_cons. cbn [fname annot fdefault].
    replace (jane_payload !! "name") with (Some (PStr "Jane Doe")) by reflexivity.
    replace (jane_payload !! "email") with (Some (PStr "jane@example.com"))
      by reflexivity.
    cbn [validate_field fname annot validate within]. rewrite Hmail.
    reflexivity. }
  split; [done|]. split.
  - cbn. repeat constructor.
  - intros store exec s log lead_id s' Hexec. rewrite <- validate_body_dict in Hok.
    rewrite (post_api_leads_accepted _ _ Hok), run_create_lead. by rewrite Hexec.
Qed.

(** C9: keys that [LeadRequest] does not declare are ignored: the payload
    and the payload stripped of them have the same validation result,
    adding one such key changes nothing, an accepted payload runs the same
    request program with or without them, and the document of an accepted
    lead has the eleven declared keys only. *)
Theorem extra_keys_ignored (m : gmap string pyval) :
  check_model LeadRequest (PDict m) =
    check_model LeadRequest (PDict (declared_only LeadRequest m))
  /\ (forall k v, k ∉ (fname <$> LeadRequest) ->
        check_model LeadRequest (PDict (<[k := v]> m)) =
          check_model LeadRequest (PDict m))
  /\ (forall lead, check_model LeadRequest (PDict m) = Ok lead ->
        endpoint (PDict m) = create_lead lead
        /\ endpoint (PDict (declared_only LeadRequest m)) = create_lead lead
        /\ (model_dump LeadRequest lead).*1 =
            ["name"; "email"; "phone"; "company"; "location"; "unit_types";
             "units_count"; "capacity_tonnage"; "preferred_interval";
             "pain_points"; "message"]).
Proof.
  assert (check_model LeadRequest (PDict m) =
          check_model LeadRequest (PDict (declared_only LeadRequest m))) as Heq.
  { unfold model_validate. by rewrite validate_fields_declared_only. }
  split; [done|]. split.
  - intros k v Hk. unfold model_validate. by rewrite validate_fields_extra_key.
  - intros lead Hok. split; [|split].
    + apply post_api_leads_accepted. by rewrite validate_body_dict.
    + apply post_api_leads_accepted. by rewrite validate_body_dict, <- Heq.
    + unfold model_validate in Hok.
      destruct (check_fields LeadRequest m) as [vs|] eqn:Hvs; [|done].
      injection Hok as <-. by rewrite (model_dump_keys _ _ _ _ _ Hvs).
Qed.

(** C10: the handler makes exactly one store call on every path, the
    insert into "lead", whatever the store answers; a request makes that
    one call when it is accepted and none when it is rejected. *)
Theorem one_insert_per_request :
  (forall lead,
      calls_exactly 1 (create_lead lead)
      /\ forall store (exec : store_op -> store -> outcome * store) s log,
           (run exec (create_lead lead) s log).2 =
             (log ++ [create_document "lead" (model_dump LeadRequest lead)])%list)
  /\ (forall request_body,
        match check_body request_body with
        | Ok lead => calls_exactly 1 (endpoint request_body)
        | Err _ => calls_exactly 0 (endpoint request_body)
        end).
Proof.
  assert (forall lead, calls_exactly 1 (create_lead lead)) as Hone.
  { intros lead. constructor. intros [lead_id|e]; constructor. }
  split.
  - intros lead. split; [done|]. intros. by rewrite run_create_lead.
  - intros request_body. unfold post_api_leads.
    destruct (check_body request_body); [done|constructor].
Qed.

End LeadIntake.

(** ** The scenarios, executed

    The statements above instantiated with the concrete checkers
    [plain_email] and [plain_int] and the store [mem_exec]. *)

Example LeadRequest_optional_fields :
  fname <$> List.filter is_optional LeadRequest =
    ["phone"; "company"; "location"; "unit_types"; "units_count";
     "capacity_tonnage"; "preferred_interval"; "pain_points"; "message"].
Proof. reflexivity. Qed.

(** The halves and the wholes: 3.5 is no integer, 3.0 is 3. *)
Example float_as_int_3_5 : float_as_int (S754_finite false 7 (-1)) = inr int_from_float.
Proof. reflexivity. Qed.

Example float_as_int_3_0 : float_as_int (S754_finite false 6 (-1)) = inl 3.
Proof. reflexivity. Qed.

(** Scenario 3: [{name: "Jane Doe", email: "not-an-email"}] fails on
    [email]. *)
Example not_an_email_rejected :
  model_validate plain_email plain_int LeadRequest (PDict not_an_email_payload) =
    Err [Error [Key "email"] value_error].
Proof. vm_compute. reflexivity. Qed.

(** A null body is reported missing, any other non-object body is not a
    model; neither reaches the handler. *)
Example null_body_rejected :
  post_api_leads plain_email plain_int PNone =
    Ret (Response 422 (ValidationDetail [Error [Key "body"] missing])).
Proof. reflexivity. Qed.

Example list_body_rejected :
  post_api_leads plain_email plain_int (PList []) =
    Ret (Response 422 (ValidationDetail [Error [Key "body"] model_attributes_type])).
Proof. reflexivity. Qed.

(** C1, the claim as it stands: the payload
    [{name: "", email: "jane@example.com"}] is not rejected. It validates to
    a lead whose name is the empty string, the insert is made, and the
    response is the success response with status 200. *)
Lemma empty_name_accepted :
  model_validate plain_email plain_int LeadRequest (PDict empty_name_payload) =
    Ok (Instance (PStr "" :: tail jane_values))
  /\ ~ (exists es, model_validate plain_email plain_int LeadRequest
                     (PDict empty_name_payload) = Err es)
  /\ run mem_exec (post_api_leads plain_email plain_int (PDict empty_name_payload))
        (MemStore true []) [] =
      (Response 200 (JSONObject [("status", PStr "success"); ("id", PStr "0")]),
       MemStore true
         [("lead", model_dump LeadRequest (Instance (PStr "" :: tail jane_values)))],
       [create_document "lead"
          (model_dump LeadRequest (Instance (PStr "" :: tail jane_values)))]).
Proof.
  assert (model_validate plain_email plain_int LeadRequest
            (PDict empty_name_payload) =
          Ok (Instance (PStr "" :: tail jane_values))) as Hok
    by (vm_compute; reflexivity).
  split; [done|]. split.
  - intros [es Hes]. congruence.
  - vm_compute. reflexivity.
Qed.

Lemma empty_name_passes_name_check_witness :
  empty_name_payload !! "name" = Some (PStr "")
  /\ model_validate plain_email plain_int LeadRequest (PDict empty_name_payload) =
       match validate_fields plain_email plain_int (tail LeadRequest)
               empty_name_payload with
       | Ok vs => Ok (Instance (PStr "" :: vs))
       | Err es => Err es
       end.
Proof.
  split; [reflexivity|].
  apply (empty_name_passes_name_check plain_email plain_int empty_name_payload).
  reflexivity.
Defined.

(** C2: the payload [{name: "Jane Doe", email: "jane@example.com",
    units_count: -1}] passes [LeadRequest], is inserted with the negative
    count and acknowledged, while the collection schema [Lead] refuses it
    under [units_count] with the rule [ge=0]. *)
Theorem negative_units_count_persisted :
  model_validate plain_email plain_int LeadRequest (PDict negative_units_payload) =
    Ok (Instance (<[6%nat := PInt (-1)]> jane_values))
  /\ run mem_exec
        (post_api_leads plain_email plain_int (PDict negative_units_payload))
        (MemStore true []) [] =
      (Response 200 (JSONObject [("status", PStr "success"); ("id", PStr "0")]),
       MemStore true
         [("lead",
           model_dump LeadRequest (Instance (<[6%nat := PInt (-1)]> jane_values)))],
       [create_document "lead"
          (model_dump LeadRequest (Instance (<[6%nat := PInt (-1)]> jane_values)))])
  /\ (model_dump LeadRequest (Instance (<[6%nat := PInt (-1)]> jane_values)))
       !! 6%nat = Some ("units_count", PInt (-1))
  /\ model_validate plain_email plain_int Lead (PDict negative_units_payload) =
       Err [Error [Key "units_count"] greater_than_equal].
Proof. repeat split; vm_compute; reflexivity. Qed.


Lemma accepted_lead_inserted_and_acknowledged_witness :
  model_validate plain_email plain_int LeadRequest (PDict jane_payload) =
    Ok (Instance jane_values)
  /\ run mem_exec (post_api_leads plain_email plain_int (PDict jane_payload))
        (MemStore true []) [] =
      (Response 200 (JSONObject [("status", PStr "success"); ("id", PStr "0")]),
       MemStore true [("lead", model_dump LeadRequest (Instance jane_values))],
       [create_document "lead" (model_dump LeadRequest (Instance jane_values))]).
Proof.
  assert (model_validate plain_email plain_int LeadRequest (PDict jane_payload) =
          Ok (Instance jane_values)) as Hok by (vm_compute; reflexivity).
  split; [exact Hok|].
  apply (proj2 (proj2 (accepted_lead_inserted_and_acknowledged
                         plain_email plain_int jane_payload _ Hok))
           mem_store mem_exec (MemStore true []) []).
  reflexivity.
Defined.

(** C5: a valid lead whose insert raises with a long message of the store
    (here 300 characters, naming host and port) is answered 500 with the
    whole message as [detail]; the diagnostic endpoint shows of the same
    message its first 50 code points only. *)
Theorem store_error_forwarded_whole :
  run unreachable_exec (post_api_leads plain_email plain_int (PDict jane_payload))
    tt [] =
    (Response 500 (JSONObject [("detail", PStr connection_error)]), tt,
     [create_document "lead" (model_dump LeadRequest (Instance jane_values))])
  /\ String.length connection_error = 300%nat
  /\ test_database (ImportRaises (lit connection_error)) (fun _ => None)
       !! "database" =
     Some (DStr (cross_mark ++ lit " Error: "
                 ++ lit "ServerSelectionTimeoutError: mongo-prod-01.interna")%list).
Proof. repeat split; vm_compute; reflexivity. Qed.


Lemma jane_doe_scenario_witness :
  plain_email "jane@example.com" = Some "jane@example.com"
  /\ model_validate plain_email plain_int LeadRequest (PDict jane_payload) =
       Ok (Instance jane_values).
Proof.
  split; [reflexivity|].
  apply (jane_doe_scenario plain_email plain_int). reflexivity.
Defined.

Lemma extra_keys_ignored_witness :
  ("utm_source" ∉ (fname <$> LeadRequest))
  /\ model_validate plain_email plain_int LeadRequest (PDict tracked_payload) =
       model_validate plain_email plain_int LeadRequest (PDict jane_payload).
Proof.
  assert ("utm_source" ∉ (fname <$> LeadRequest)) as Hk.
  { apply (bool_decide_unpack _). vm_compute. reflexivity. }
  split; [exact Hk|].
  exact (proj1 (proj2 (extra_keys_ignored plain_email plain_int jane_payload))
           "utm_source" (PStr "newsletter") Hk).
Defined.

(** ** Further properties of the two lead classes *)

Lemma collect_fmap_Ok {A} (l : list A) : collect (Ok <$> l) = Ok l.
Proof.
  induction l as [|a l IH]; [done|].
  rewrite fmap_cons. cbn [collect]. by rewrite IH.
Qed.

Section ClassFacts.

Variable validate_email : string -> option string.
Variable str_as_int : string -> Z + error_type.

Local Abbreviation check := (validate validate_email str_as_int).
Local Abbreviation check_field := (validate_field validate_email str_as_int).
Local Abbreviation check_fields := (validate_fields validate_email str_as_int).
Local Abbreviation check_model := (model_validate validate_email str_as_int).

(** The items of an accepted list are the accepted items, index by index. *)
Lemma validate_list_items item (l l' : list pyval) :
  check (List_ item) (PList l) = Ok (PList l') ->
  Forall2 (fun x x' => check item x = Ok x') l l'.
Proof.
  cbn [validate]. intros H.
  destruct (collect _) as [l0|] eqn:Hc; [|done]. injection H as ->.
  apply collect_ok_all in Hc. apply Forall2_same_length_lookup. split.
  - apply (f_equal length) in Hc. by rewrite length_imap, length_fmap in Hc.
  - intros i x x' Hx Hx'. apply (f_equal (fun rs => rs !! i)) in Hc.
    rewrite list_lookup_imap, list_lookup_fmap, Hx, Hx' in Hc. cbn in Hc.
    injection Hc as Hc. by destruct (check item x).
Qed.

Lemma validate_conforms t v v' :
  check t v = Ok v' -> conforms t v' = true.
Proof.
  revert v v'. induction t as [| |ge|item IH|inner IH]; intros v v'.
  - cbn. destruct v; try done. by intros [= <-].
  - cbn. destruct v as [| | | |s| |]; try done.
    destruct (validate_email s); [|done]. by intros [= <-].
  - cbn [validate]. destruct (validate_int _ v) as [z|]; [|done].
    destruct ge as [bound|].
    + destruct (bound <=? z) eqn:Hb; [|done]. intros [= <-]. by cbn.
    + by intros [= <-].
  - destruct v as [| | | | |l|]; try done. intros H.
    assert (exists l', v' = PList l') as [l' ->].
    { cbn [validate] in H. destruct (collect _); [|done]. injection H as <-. eauto. }
    apply validate_list_items in H. cbn. apply forallb_forall.
    intros x' Hin. apply list_elem_of_In in Hin.
    apply list_elem_of_lookup in Hin as [i Hi].
    destruct (Forall2_lookup_r _ _ _ _ _ H Hi) as (x & _ & Hx). by eapply IH.
  - destruct v; cbn [validate]; try (intros H; apply IH in H; cbn;
      by destruct v'). by intros [= <-].
Qed.

Lemma validate_field_conforms fd entry v :
  (forall d, fdefault fd = Some d -> conforms (annot fd) d = true) ->
  check_field fd entry = Ok v -> conforms (annot fd) v = true.
Proof.
  intros Hd. unfold validate_field. destruct entry as [v0|].
  - destruct (check (annot fd) v0) eqn:Hv; [|done]. intros [= <-].
    by eapply validate_conforms.
  - destruct (fdefault fd) as [d|]; [|done]. intros [= <-]. by apply Hd.
Qed.

(** Acceptance carries over from one class and payload to another, field
    by field. *)
Lemma validate_fields_transfer cls cls' (m m' : gmap string pyval) vs :
  length cls = length cls' ->
  check_fields cls m = Ok vs ->
  (forall i fd fd' v, cls !! i = Some fd -> cls' !! i = Some fd' ->
     vs !! i = Some v -> check_field fd (m !! fname fd) = Ok v ->
     check_field fd' (m' !! fname fd') = Ok v) ->
  check_fields cls' m' = Ok vs.
Proof.
  intros Hlen Hok Hstep. pose proof (validate_fields_values _ _ _ _ _ Hok) as Hvs.
  unfold validate_fields.
  replace ((fun fd => check_field fd (m' !! fname fd)) <$> cls') with (Ok <$> vs);
    [apply collect_fmap_Ok|].
  apply list_eq. intros i. rewrite !list_lookup_fmap.
  destruct (cls' !! i) as [fd'|] eqn:Hfd'.
  - destruct (lookup_lt_is_Some_2 cls i) as [fd Hfd].
    { rewrite Hlen. by eapply lookup_lt_Some. }
    destruct (Forall2_lookup_l _ _ _ _ _ Hvs Hfd) as (v & Hv & Hfv).
    rewrite Hv. cbn. f_equal. symmetry. by eapply Hstep.
  - apply lookup_ge_None in Hfd'. rewrite lookup_ge_None_2; [done|].
    rewrite <- (Forall2_length _ _ _ Hvs). lia.
Qed.

Lemma units_count_bound_dropped v v' :
  check (Optional (Int (Some 0))) v = Ok v' ->
  check (Optional (Int None)) v = Ok v'.
Proof.
  destruct v; cbn [validate]; try done;
    destruct (validate_int _ _) as [n|]; try done;
    by destruct (0 <=? n).
Qed.

Lemma units_count_bound_met v v' :
  check (Optional (Int None)) v = Ok v' ->
  conforms (Optional (Int (Some 0))) v' = true ->
  check (Optional (Int (Some 0))) v = Ok v'.
Proof.
  destruct v; cbn [validate]; try done;
    destruct (validate_int _ _) as [n|]; try done;
    intros [= <-]; cbn; by intros ->.
Qed.

Lemma units_count_field_dropped entry v :
  check_field (Field "units_count" (Optional (Int (Some 0))) (Some PNone)) entry
    = Ok v ->
  check_field (Field "units_count" (Optional (Int None)) (Some PNone)) entry = Ok v.
Proof.
  unfold validate_field. cbn [fname annot fdefault].
  destruct entry as [v0|]; [|done].
  destruct (check (Optional (Int (Some 0))) v0) as [v1|] eqn:Hv0; [|done].
  intros [= <-]. by rewrite (units_count_bound_dropped _ _ Hv0).
Qed.

Lemma units_count_field_met entry v :
  check_field (Field "units_count" (Optional (Int None)) (Some PNone)) entry = Ok v ->
  conforms (Optional (Int (Some 0))) v = true ->
  check_field (Field "units_count" (Optional (Int (Some 0))) (Some PNone)) entry
    = Ok v.
Proof.
  unfold validate_field. cbn [fname annot fdefault].
  destruct entry as [v0|]; [|done].
  destruct (check (Optional (Int None)) v0) as [v1|] eqn:Hv0; [|done].
  intros [= <-] Hc. by rewrite (units_count_bound_met _ _ Hv0 Hc).
Qed.

Lemma model_validate_inv cls request_body obj :
  check_model cls request_body = Ok obj ->
  exists m, request_body = PDict m /\ check_fields cls m = Ok (values obj).
Proof.
  destruct request_body as [| | | | | |m]; try done. cbn.
  destruct (check_fields cls m) as [vs|] eqn:Hvs; [|done].
  intros [= <-]. eauto.
Qed.

Lemma validate_fields_conform cls (m : gmap string pyval) vs :
  Forall (fun fd => forall d, fdefault fd = Some d -> conforms (annot fd) d = true) cls ->
  check_fields cls m = Ok vs ->
  Forall2 (fun fd v => conforms (annot fd) v = true) cls vs.
Proof.
  intros Hd Hok. apply validate_fields_values in Hok.
  induction Hok as [|fd v cls vs Hv Hvs IH]; [constructor|].
  apply Forall_cons in Hd as [Hfd Hd]. constructor; [|by apply IH].
  by eapply validate_field_conforms.
Qed.

Lemma LeadRequest_defaults_conform :
  Forall (fun fd => forall d, fdefault fd = Some d -> conforms (annot fd) d = true)
    LeadRequest.
Proof. repeat constructor; cbn; by intros d [= <-]. Qed.

Lemma Lead_defaults_conform :
  Forall (fun fd => forall d, fdefault fd = Some d -> conforms (annot fd) d = true)
    Lead.
Proof. repeat constructor; cbn; by intros d [= <-]. Qed.

(** X1: every lead that reaches the handler is well typed: [name] and
    [email] are strings, [units_count] is an integer or null, the two tag
    fields are lists of strings or null, every other field a string or
    null. *)
Theorem accepted_lead_well_typed request_body lead :
  validate_body validate_email str_as_int request_body = Ok lead ->
  length (values lead) = length LeadRequest
  /\ Forall2 (fun fd v => conforms (annot fd) v = true) LeadRequest (values lead).
Proof.
  intros Hok.
  assert (check_model LeadRequest request_body = Ok lead) as Hm
    by (by destruct request_body).
  apply model_validate_inv in Hm as (m & -> & Hvs). split.
  - by eapply validate_fields_length.
  - eapply validate_fields_conform; [apply LeadRequest_defaults_conform|done].
Qed.

Lemma Lead_units_count_attr request_body obj :
  check_model Lead request_body = Ok obj ->
  getattr Lead obj "units_count" = Some PNone
  \/ exists z, getattr Lead obj "units_count" = Some (PInt z) /\ 0 <= z.
Proof.
  intros Hok. apply model_validate_inv in Hok as (m & -> & Hvs).
  pose proof (validate_fields_conform _ _ _ Lead_defaults_conform Hvs) as Hc.
  destruct obj as [vs]. cbn [values] in *. unfold Lead in Hc.
  repeat match goal with
         | H : Forall2 _ (_ :: _) _ |- _ =>
             apply Forall2_cons_inv_l in H as (? & ? & ? & H & ->)
         | H : Forall2 _ [] _ |- _ => apply Forall2_nil_inv_l in H as ->
         end.
  cbn [annot] in *. cbn [getattr model_dump].
  match goal with
  | H : conforms (Optional (Int (Some 0))) ?v = true |- _ =>
      destruct v as [| |z| | | |]; try done; cbn in H
  end; cbn.
  - by left.
  - right. exists z. split; [done|]. by apply Z.leb_le.
Qed.

(** X2: an object of the collection schema [Lead] is well typed for its
    annotations, and its [units_count] is null or an integer that is at
    least 0. *)
Theorem Lead_units_count_non_negative request_body obj :
  check_model Lead request_body = Ok obj ->
  Forall2 (fun fd v => conforms (annot fd) v = true) Lead (values obj)
  /\ (getattr Lead obj "units_count" = Some PNone
      \/ exists z, getattr Lead obj "units_count" = Some (PInt z) /\ 0 <= z).
Proof.
  intros Hok. split; [|by eapply Lead_units_count_attr].
  apply model_validate_inv in Hok as (m & -> & Hvs).
  eapply validate_fields_conform; [apply Lead_defaults_conform|done].
Qed.

(** X3: [Lead] is [LeadRequest] with the bound on [units_count]: a body
    is an object of [Lead] exactly when it is an object of [LeadRequest]
    whose [units_count] is null or at least 0, and it is then the same
    object. *)
Theorem Lead_is_LeadRequest_with_bound request_body obj :
  check_model Lead request_body = Ok obj
  <-> check_model LeadRequest request_body = Ok obj
      /\ (getattr LeadRequest obj "units_count" = Some PNone
          \/ exists z, getattr LeadRequest obj "units_count" = Some (PInt z)
                       /\ 0 <= z).
Proof.
  split.
  - intros Hok. split; [|by eapply Lead_units_count_attr].
    apply model_validate_inv in Hok as (m & -> & Hvs). unfold model_validate.
    rewrite (validate_fields_transfer Lead LeadRequest m m (values obj));
      [by destruct obj|done|done|].
    intros i fd fd' v Hfd Hfd' _ Hv.
    do 11 (destruct i as [|i];
           [cbn in Hfd, Hfd'; simplify_eq;
            first [done | by apply units_count_field_dropped]|]).
    done.
  - intros [Hok Hunits]. apply model_validate_inv in Hok as (m & -> & Hvs).
    unfold model_validate.
    pose proof (validate_fields_length _ _ _ _ _ Hvs) as Hlen.
    assert (forall v, values obj !! 6%nat = Some v ->
                      conforms (Optional (Int (Some 0))) v = true) as Hc.
    { destruct obj as [vs]. cbn [values] in *.
      do 11 (destruct vs as [|? vs]; [done|]). destruct vs; [|done].
      cbn in Hunits |- *. intros v [= <-].
      destruct Hunits as [[= ->]|(z & [= ->] & Hz)]; [done|].
      cbn. by apply Z.leb_le. }
    rewrite (validate_fields_transfer LeadRequest Lead m m (values obj));
      [by destruct obj|done|done|].
    intros i fd fd' v Hfd Hfd' Hvi Hv.
    do 11 (destruct i as [|i];
           [cbn in Hfd, Hfd'; simplify_eq;
            first [done | by apply units_count_field_met, Hc]|]).
    done.
Qed.

(** A validated value passes validation again, unchanged, once the
    address checker takes its own output as it is. *)
Lemma validate_idempotent t v v' :
  (forall s n, validate_email s = Some n -> validate_email n = Some n) ->
  check t v = Ok v' -> check t v' = Ok v'.
Proof.
  intros Hmail. revert v v'.
  induction t as [| |ge|item IH|inner IH]; intros v v'.
  - cbn. destruct v; try done. by intros [= <-].
  - cbn. destruct v as [| | | |s| |]; try done.
    destruct (validate_email s) as [n|] eqn:Hs; [|done]. intros [= <-].
    by rewrite (Hmail _ _ Hs).
  - cbn [validate]. destruct (validate_int _ v) as [z|]; [|done].
    destruct ge as [bound|].
    + destruct (bound <=? z) eqn:Hb; [|done]. intros [= <-]. cbn. by rewrite Hb.
    + by intros [= <-].
  - destruct v as [| | | | |l|]; try done. intros H.
    assert (exists l', v' = PList l') as [l' ->].
    { cbn [validate] in H. destruct (collect _); [|done]. injection H as <-. eauto. }
    apply validate_list_items in H. cbn [validate].
    replace (imap (fun i x => within (Index i) (check item x)) l') with (Ok <$> l');
      [by rewrite collect_fmap_Ok|].
    apply list_eq. intros i. rewrite list_lookup_imap, list_lookup_fmap.
    destruct (l' !! i) as [x'|] eqn:Hi; [|done]. cbn.
    destruct (Forall2_lookup_r _ _ _ _ _ H Hi) as (x & _ & Hx).
    by rewrite (IH _ _ Hx).
  - destruct v; cbn [validate]; [by intros [= <-]|..];
      intros H; apply IH in H; by destruct v'.
Qed.

(** X4: the document written for an accepted lead is itself a valid
    payload and validates to the same lead, provided the address checker
    takes a normalised address as it is. *)
Theorem dumped_lead_revalidates (m : gmap string pyval) lead :
  (forall s n, validate_email s = Some n -> validate_email n = Some n) ->
  check_model LeadRequest (PDict m) = Ok lead ->
  check_model LeadRequest (PDict (list_to_map (model_dump LeadRequest lead)))
    = Ok lead.
Proof.
  intros Hmail Hok. apply model_validate_inv in Hok as (? & [= <-] & Hvs).
  unfold model_validate.
  rewrite (validate_fields_transfer LeadRequest LeadRequest m
             (list_to_map (model_dump LeadRequest lead)) (values lead));
    [by destruct lead|done|done|].
  pose proof (validate_fields_length _ _ _ _ _ Hvs) as Hlen.
  intros i fd fd' v Hfd Hfd' Hvi Hv. simplify_eq.
  assert (list_to_map (M := gmap string pyval) (model_dump LeadRequest lead)
            !! fname fd = Some v) as ->.
  { apply elem_of_list_to_map_1.
    - unfold model_dump. rewrite fst_zip by (rewrite length_fmap; lia).
      apply (bool_decide_unpack _). by vm_compute.
    - apply list_elem_of_lookup. exists i. unfold model_dump.
      apply lookup_zip_with_Some. exists (fname fd), v.
      by rewrite list_lookup_fmap, Hfd. }
  unfold validate_field in Hv |- *. destruct (m !! fname fd) as [v0|].
  - destruct (check (annot fd) v0) as [v1|] eqn:Hv0; [|done].
    cbn in Hv. injection Hv as ->.
    by rewrite (validate_idempotent _ _ _ Hmail Hv0).
  - do 11 (destruct i as [|i];
           [cbn in Hfd; simplify_eq; cbn in Hv; by simplify_eq|]).
    done.
Qed.

Lemma collect_errors {A} (rs : list (result A)) es :
  collect rs = Err es -> es = mjoin (errors_of <$> rs).
Proof.
  revert es. induction rs as [|r rs IH]; intros es; [done|]. cbn [collect].
  rewrite fmap_cons. cbn [mjoin list_join].
  destruct r as [a|e], (collect rs) as [l|es2] eqn:Hc; intros [= <-]; cbn.
  - by apply IH.
  - apply collect_ok_all in Hc. rewrite Hc.
    clear. induction l as [|x l IH]; cbn; [by rewrite app_nil_r|done].
  - f_equal. by apply IH.
Qed.

(** X5: validation reports every failing field, not the first one only:
    the error list of a rejected payload is the errors of its fields one
    after the other, in the order the class declares them. *)
Theorem all_field_errors_reported (m : gmap string pyval) es :
  check_model LeadRequest (PDict m) = Err es ->
  es = mjoin ((fun fd => errors_of (check_field fd (m !! fname fd)))
                <$> LeadRequest).
Proof.
  unfold model_validate.
  destruct (check_fields LeadRequest m) as [|es'] eqn:Hes; [done|].
  intros [= <-]. apply collect_errors in Hes.
  by rewrite <- list_fmap_compose in Hes.
Qed.

Lemma validate_textual t v v' :
  textual t = true -> check t v = Ok v' -> v' = v.
Proof.
  revert v v'. induction t as [| |ge|item IH|inner IH]; intros v v' Ht; try done.
  - cbn. destruct v; try done. by intros [= <-].
  - destruct v as [| | | | |l|]; try done. intros H.
    assert (exists l', v' = PList l') as [l' ->].
    { cbn [validate] in H. destruct (collect _); [|done]. injection H as <-. eauto. }
    apply validate_list_items in H. f_equal. symmetry.
    apply list_eq_Forall2. eapply Forall2_impl; [exact H|].
    intros x x' Hx. symmetry. by eapply IH.
  - destruct v; cbn [validate]; [by intros [= <-]|..]; by apply IH.
Qed.

Lemma validate_flat_err t v es :
  flat t = true -> check t v = Err es -> exists ty, es = [Error [] ty].
Proof.
  revert v. induction t as [| |ge|item IH|inner IH]; intros v Ht; try done.
  - cbn. destruct v; try done; intros [= <-]; eauto.
  - cbn. destruct v as [| | | |s| |]; try (intros [= <-]; eauto).
    destruct (validate_email s); [done|]. intros [= <-]; eauto.
  - cbn [validate]. destruct (validate_int _ v) as [z|ty].
    + destruct ge as [bound|]; [|done].
      destruct (bound <=? z); [done|]. intros [= <-]; eauto.
    + intros [= <-]; eauto.
  - destruct v; cbn [validate]; [done|..]; by apply IH.
Qed.

Lemma validate_str_list_err v es e :
  check (Optional (List_ Str)) v = Err es -> e ∈ es ->
  e = Error [] list_type
  \/ exists l i x, v = PList l /\ l !! i = Some x /\ is_str x = false
                   /\ e = Error [Index i] string_type.
Proof.
  destruct v as [| | | | |l|]; cbn [validate]; try done;
    try (intros [= <-] ->%list_elem_of_singleton; by left).
  destruct (collect _) as [|es'] eqn:Hc; [done|]. intros [= <-] He. right.
  destruct (collect_err_elem _ _ _ Hc He) as (es0 & Hes0 & He0).
  apply list_elem_of_lookup in Hes0 as [i Hi].
  rewrite list_lookup_imap in Hi. destruct (l !! i) as [x|] eqn:Hx; [|done].
  exists l, i, x. cbn in Hi. injection Hi as Hi.
  destruct x; cbn in Hi; try done; injection Hi as <-;
    apply list_elem_of_singleton in He0 as ->; done.
Qed.

Lemma str_list_item_rejected (l : list pyval) i x :
  l !! i = Some x -> is_str x = false ->
  exists es, check (Optional (List_ Str)) (PList l) = Err es
             /\ Error [Index i] string_type ∈ es.
Proof.
  intros Hx Hstr.
  change (check (Optional (List_ Str)) (PList l)) with
    (match collect (imap (fun i x => within (Index i) (check Str x)) l) with
     | Ok l' => Ok (PList l')
     | Err es => Err es
     end).
  destruct (collect_err_intro
              (imap (fun i x => within (Index i) (check Str x)) l)
              [Error [Index i] string_type]) as (es & -> & Hsub).
  - apply list_elem_of_lookup. exists i. rewrite list_lookup_imap, Hx.
    by destruct x.
  - exists es. split; [done|]. apply Hsub. by left.
Qed.

(** X6: every error of a rejected body is located at the body itself, at
    one declared field, or at one item of one of the two tag lists, in
    which case it says that the item is no string. *)
Theorem errors_are_located request_body es e :
  validate_body validate_email str_as_int request_body = Err es -> e ∈ es ->
  err_loc e = []
  \/ exists fd, fd ∈ LeadRequest
       /\ (err_loc e = [Key (fname fd)]
           \/ exists i, annot fd = Optional (List_ Str)
                        /\ e = Error [Key (fname fd); Index i] string_type).
Proof.
  intros Hrej He.
  destruct request_body as [| | | | | |m].
  1-6: cbn in Hrej; unfold fail in Hrej; injection Hrej as <-;
       apply list_elem_of_singleton in He as ->; by left.
  unfold validate_body, model_validate in Hrej.
  destruct (check_fields LeadRequest m) as [|es'] eqn:Hes; [done|].
  injection Hrej as <-. right.
  destruct (collect_err_elem _ _ _ Hes He) as (es0 & Hes0 & He0).
  apply list_elem_of_fmap in Hes0 as (fd & Hfd & Hin).
  exists fd. split; [done|]. symmetry in Hfd. unfold validate_field in Hfd.
  destruct (m !! fname fd) as [v|].
  - destruct (check (annot fd) v) as [|es1] eqn:Hv; [done|]. cbn in Hfd.
    injection Hfd as <-. apply list_elem_of_fmap in He0 as (e1 & -> & He1).
    destruct (flat (annot fd)) eqn:Hflat.
    + destruct (validate_flat_err _ _ _ Hflat Hv) as [ty ->].
      apply list_elem_of_singleton in He1 as ->. by left.
    + assert (annot fd = Optional (List_ Str)) as Hann.
      { unfold LeadRequest in Hin. rewrite !elem_of_cons, elem_of_nil in Hin.
        destruct_or!; subst; done. }
      rewrite Hann in Hv.
      destruct (validate_str_list_err _ _ _ Hv He1)
        as [->|(l & i & x & _ & _ & _ & ->)]; [by left|].
      right. by exists i.
  - destruct (fdefault fd); [done|]. injection Hfd as <-.
    apply list_elem_of_singleton in He0 as ->. by left.
Qed.

(** X7: a tag list with an item that is no string is rejected, and the
    error names the field and the index of the item. *)
Theorem non_string_tag_rejected (m : gmap string pyval) fd l i x :
  fd ∈ LeadRequest -> annot fd = Optional (List_ Str) ->
  m !! fname fd = Some (PList l) -> l !! i = Some x -> is_str x = false ->
  exists es, check_model LeadRequest (PDict m) = Err es
             /\ Error [Key (fname fd); Index i] string_type ∈ es.
Proof.
  intros Hfd Hann Hm Hx Hstr.
  destruct (str_list_item_rejected l i x Hx Hstr) as (es0 & Hes0 & Hin0).
  destruct (validate_fields_field_err validate_email str_as_int LeadRequest m fd
              (under (Key (fname fd)) <$> es0) Hfd) as (es & Hes & Hsub).
  { unfold validate_field. by rewrite Hm, Hann, Hes0. }
  exists es. unfold model_validate. rewrite Hes. split; [done|].
  apply Hsub, list_elem_of_fmap. by exists (Error [Index i] string_type).
Qed.

(** X8: the text fields are stored as they were sent: for [name], the
    optional strings and the two tag lists, the attribute of an accepted
    lead is the payload's entry itself, and null when the payload has no
    such key. *)
Theorem text_fields_kept_verbatim (m : gmap string pyval) lead fd :
  check_model LeadRequest (PDict m) = Ok lead ->
  fd ∈ LeadRequest -> textual (annot fd) = true ->
  getattr LeadRequest lead (fname fd) = Some (default PNone (m !! fname fd)).
Proof.
  intros Hok Hfd Htext. apply model_validate_inv in Hok as (? & [= <-] & Hvs).
  apply validate_fields_values in Hvs. destruct lead as [vs]. cbn [values] in Hvs.
  assert (forall v, check_field fd (m !! fname fd) = Ok v ->
                    v = default PNone (m !! fname fd)) as Hval.
  { intros v. unfold validate_field. destruct (m !! fname fd) as [v0|].
    - destruct (check (annot fd) v0) as [v1|] eqn:Hv0; [|done]. intros [= <-].
      by apply (validate_textual _ _ _ Htext).
    - unfold LeadRequest in Hfd. rewrite !elem_of_cons, elem_of_nil in Hfd.
      destruct_or!; subst; cbn; try done; by intros [= <-]. }
  unfold LeadRequest in Hvs.
  repeat match goal with
         | H : Forall2 _ (_ :: _) _ |- _ =>
             apply Forall2_cons_inv_l in H as (? & ? & ? & H & ->)
         | H : Forall2 _ [] _ |- _ => apply Forall2_nil_inv_l in H as ->
         end.
  unfold LeadRequest in Hfd. rewrite !elem_of_cons, elem_of_nil in Hfd.
  destruct_or!; subst; try done; cbn [getattr model_dump]; cbn; f_equal;
    by apply Hval.
Qed.

Lemma within_errors_length {A} i (r : result A) :
  length (errors_of (within i r)) = length (errors_of r).
Proof. destruct r; cbn; [done|by rewrite length_fmap]. Qed.

Lemma collect_errors_of {A} (rs : list (result A)) :
  errors_of (collect rs) = mjoin (errors_of <$> rs).
Proof.
  destruct (collect rs) as [l|es] eqn:Hc.
  - apply collect_ok_all in Hc as ->. clear.
    induction l as [|x l IH]; [done|]. rewrite !fmap_cons.
    change (mjoin (?a :: ?ls)) with (a ++ mjoin ls)%list. by rewrite <- IH.
  - by apply collect_errors.
Qed.

(** Each error has its echoed input: the two lists have one length. *)
Lemma echoed_length t v :
  length (echoed validate_email str_as_int t v) = length (errors_of (check t v)).
Proof.
  revert v. induction t as [| |ge|item IH|inner IH]; intros v.
  - cbn [echoed]. destruct (check Str v) as [|es] eqn:Hv; [done|].
    by destruct (validate_flat_err Str _ _ eq_refl Hv) as [ty ->].
  - cbn [echoed]. destruct (check EmailStr v) as [|es] eqn:Hv; [done|].
    by destruct (validate_flat_err EmailStr _ _ eq_refl Hv) as [ty ->].
  - cbn [echoed]. destruct (check (Int ge) v) as [|es] eqn:Hv; [done|].
    by destruct (validate_flat_err (Int ge) _ _ eq_refl Hv) as [ty ->].
  - destruct v as [| | | | |l|]; try done. cbn [echoed validate].
    transitivity (length (errors_of
      (collect (imap (fun i x => within (Index i) (check item x)) l)))).
    2: { by destruct (collect _). }
    rewrite collect_errors_of.
    change (fun i x => within (Index i) (check item x))
      with (fun i x => within (Index (id i)) (check item x)).
    generalize (@id nat). intros g. revert g.
    induction l as [|x l IHl]; intros g; [done|].
    cbn [imap]. rewrite !fmap_cons.
    change (mjoin (?a :: ?ls)) with (a ++ mjoin ls)%list.
    rewrite !length_app, IH, within_errors_length. f_equal.
    exact (IHl (g ∘ S)).
  - destruct v; cbn [echoed validate]; try done; apply IH.
Qed.

(** X9: an accepted payload did carry its two required fields: [name] is
    a string and is the lead's name, [email] is a string that the address
    checker accepts, and the lead's email is the checker's normalised
    address. *)
Theorem accepted_lead_has_name_and_email (m : gmap string pyval) lead :
  check_model LeadRequest (PDict m) = Ok lead ->
  exists name address normalized,
    m !! "name" = Some (PStr name)
    /\ m !! "email" = Some (PStr address)
    /\ validate_email address = Some normalized
    /\ getattr LeadRequest lead "name" = Some (PStr name)
    /\ getattr LeadRequest lead "email" = Some (PStr normalized).
Proof.
  intros Hok. apply model_validate_inv in Hok as (? & [= <-] & Hvs).
  apply validate_fields_values in Hvs. destruct lead as [vs]. cbn [values] in Hvs.
  unfold LeadRequest in Hvs.
  repeat match goal with
         | H : Forall2 _ (_ :: _) _ |- _ =>
             apply Forall2_cons_inv_l in H as (? & ? & ? & H & ->)
         | H : Forall2 _ [] _ |- _ => apply Forall2_nil_inv_l in H as ->
         end.
  repeat match goal with
         | H : check_field _ _ = Ok _ |- _ =>
             unfold validate_field in H; cbn [fname annot fdefault] in H
         end.
  destruct (m !! "name") as [[| | | |name| |]|]; try done.
  destruct (m !! "email") as [[| | | |address| |]|]; try done.
  cbn in *. destruct (validate_email address) as [normalized|] eqn:Hmail; [|done].
  exists name, address, normalized. cbn in *. by simplify_eq.
Qed.

End ClassFacts.

(** ** Further properties of the request flow *)

Section FlowFacts.

Variable validate_email : string -> option string.
Variable str_as_int : string -> Z + error_type.
Context {store : Type}.
Variable exec : store_op -> store -> outcome * store.

Local Abbreviation check_body := (validate_body validate_email str_as_int).
Local Abbreviation endpoint := (post_api_leads validate_email str_as_int).


(** X11: nothing is deduplicated or remembered between requests: sending
    an accepted body a second time makes the same insert call a second
    time, whatever the store answered to the first. *)
Theorem resubmission_inserts_again request_body lead s log :
  check_body request_body = Ok lead ->
  let first := run exec (endpoint request_body) s log in
  let second := run exec (endpoint request_body) first.1.2 first.2 in
  second.2 =
    (log ++ [create_document "lead" (model_dump LeadRequest lead);
             create_document "lead" (model_dump LeadRequest lead)])%list.
Proof.
  intros Hv. cbv zeta.
  rewrite (post_api_leads_accepted _ _ _ _ Hv), !run_create_lead. cbn.
  by rewrite <- app_assoc.
Qed.

End FlowFacts.

(** ** Properties of the diagnostic endpoint *)

Ltac lookup_response :=
  unfold test_database, outer_except; cbv zeta;
  repeat (rewrite lookup_insert_eq || rewrite lookup_insert_ne by done).

(** The outcomes of the import, of reading the name and of the listing,
    one goal each. *)
Ltac import_cases imp :=
  let e := fresh "e" in
  let db := fresh "db" in
  let v := fresh "v" in
  let names := fresh "names" in
  let Hname := fresh "Hname" in
  let Hlist := fresh "Hlist" in
  destruct imp as [|e|[db|]];
  [| |destruct (name_or db (DStr (check_mark ++ lit " Connected")%list))
        as [v|[|e]] eqn:Hname;
      [destruct (collection_names db) as [names|e] eqn:Hlist| |]|];
  unfold test_database;
  repeat match goal with
         | H : name_or _ _ = _ |- _ => rewrite H
         | H : collection_names _ = _ |- _ => rewrite H
         end.

Section DiagnosticFacts.

Variable getenv : string -> option text.

(** X12: the two flags [database_url] and [database_name] of the
    diagnostic response tell only whether the environment variable is set
    to a non-empty value; what the database object is, has for a name or
    does never shows in them. *)
Theorem diagnostic_flags_from_environment (imp : import_db) :
  test_database imp getenv !! "database_url" =
    Some (DStr (if truthy (getenv "DATABASE_URL")
                then (check_mark ++ lit " Set")%list
                else (cross_mark ++ lit " Not Set")%list))
  /\ test_database imp getenv !! "database_name" =
    Some (DStr (if truthy (getenv "DATABASE_NAME")
                then (check_mark ++ lit " Set")%list
                else (cross_mark ++ lit " Not Set")%list))
  /\ (truthy (getenv "DATABASE_URL") = true
      <-> exists c t, getenv "DATABASE_URL" = Some (c :: t)).
Proof.
  split; [|split].
  - import_cases imp; by lookup_response.
  - import_cases imp; by lookup_response.
  - unfold truthy. destruct (getenv "DATABASE_URL") as [[|c t]|]; split;
      try done; try (intros (? & ? & ?); done). eauto.
Qed.

(** X13: when the database object is there, its name can be read and the
    listing returns names, the diagnostic response lists the first ten of
    them, in their order, and says connected and working; in every other
    case the list is empty. It never has more than ten entries. *)
Theorem diagnostic_collections_bounded (imp : import_db) :
  (forall db v names,
      imp = Imported (Some db) ->
      name_or db (DStr (check_mark ++ lit " Connected")%list) = inl v ->
      collection_names db = inl names ->
      test_database imp getenv !! "collections" = Some (DList (take 10 names))
      /\ test_database imp getenv !! "database" =
           Some (DStr (check_mark ++ lit " Connected & Working")%list))
  /\ ((~ exists db v names,
          imp = Imported (Some db)
          /\ name_or db (DStr (check_mark ++ lit " Connected")%list) = inl v
          /\ collection_names db = inl names) ->
      test_database imp getenv !! "collections" = Some (DList []))
  /\ (exists l, test_database imp getenv !! "collections" = Some (DList l)
                /\ (length l <= 10)%nat).
Proof.
  split; [|split].
  - intros db v names -> Hname Hlist. unfold test_database.
    rewrite Hname, Hlist. split; by lookup_response.
  - intros Hnot. import_cases imp; try by lookup_response.
    exfalso. apply Hnot. by exists db, v, names.
  - import_cases imp;
      try (exists []; split; [by lookup_response|cbn; lia]).
    exists (take 10 names). split; [by lookup_response|].
    rewrite length_take. lia.
Qed.

(** X14: the diagnostic response says "Connected" exactly when the import
    gave a database object that is not [None] and whose name could be
    read without an exception, also when listing its collections then
    fails; otherwise it says "Not Connected". *)
Theorem diagnostic_connection_status (imp : import_db) :
  (test_database imp getenv !! "connection_status" = Some (DStr (lit "Connected"))
   <-> exists db v,
         imp = Imported (Some db)
         /\ name_or db (DStr (check_mark ++ lit " Connected")%list) = inl v)
  /\ (test_database imp getenv !! "connection_status" =
        Some (DStr (lit "Not Connected"))
      <-> ~ exists db v,
            imp = Imported (Some db)
            /\ name_or db (DStr (check_mark ++ lit " Connected")%list) = inl v).
Proof.
  assert ((exists db v,
             imp = Imported (Some db)
             /\ name_or db (DStr (check_mark ++ lit " Connected")%list) = inl v)
          /\ test_database imp getenv !! "connection_status"
               = Some (DStr (lit "Connected"))
          \/ (~ exists db v,
                 imp = Imported (Some db)
                 /\ name_or db (DStr (check_mark ++ lit " Connected")%list) = inl v)
             /\ test_database imp getenv !! "connection_status"
                  = Some (DStr (lit "Not Connected"))) as [[Hyes ->]|[Hno ->]].
  { import_cases imp.
    3,4: left; split; [by eauto|by lookup_response].
    all: right; split; [|by lookup_response].
    all: intros (db' & v' & Himp & Hname'); simplify_eq; congruence. }
  - split; split; try done; try (intros H; by destruct H).
  - split; split; try done; try (by intros [= ?]).
Qed.

(** X15: the [database] status of the diagnostic response is a text of at
    most 75 code points, however long the message of a raised exception
    is: of the message only the first 50 code points are shown, whether it
    was raised by the import, by reading the name of the database object,
    or by the listing. *)
Theorem diagnostic_status_bounded (imp : import_db) :
  exists t,
    test_database imp getenv !! "database" = Some (DStr t)
    /\ (length t <= 75)%nat
    /\ (forall e, imp = ImportRaises e ->
          t = (cross_mark ++ lit " Error: " ++ take 50 e)%list)
    /\ (forall db e, imp = Imported (Some db) ->
          name_or db (DStr (check_mark ++ lit " Connected")%list)
            = inr (OtherException e) ->
          t = (cross_mark ++ lit " Error: " ++ take 50 e)%list)
    /\ (forall db v e, imp = Imported (Some db) ->
          name_or db (DStr (check_mark ++ lit " Connected")%list) = inl v ->
          collection_names db = inr e ->
          t = (warning_sign ++ lit "  Connected but Error: " ++ take 50 e)%list).
Proof.
  assert (forall (p e : text), (length p <= 25)%nat ->
            (length (p ++ take 50 e) <= 75)%nat) as Hbound.
  { intros p e Hp. rewrite length_app, length_take. lia. }
  import_cases imp; eexists; (split; [by lookup_response|]).
  all: split; [first [rewrite app_assoc; apply Hbound; cbn; lia | cbn; lia]|].
  all: repeat split; intros; simplify_eq; congruence.
Qed.

End DiagnosticFacts.

(** ** The further properties, executed *)

Lemma plain_email_idempotent s n :
  plain_email s = Some n -> plain_email n = Some n.
Proof.
  intros H. assert (n = s) as ->; [|done].
  unfold plain_email in H.
  destruct (split_at "@" (list_ascii_of_string s)) as [[loc dom]|]; [|done].
  destruct (split_at "." dom) as [[d1 d2]|]; [|done].
  destruct (_ && _); [|done]. by injection H.
Qed.

Lemma jane_accepted :
  model_validate plain_email plain_int LeadRequest (PDict jane_payload) =
    Ok (Instance jane_values).
Proof. vm_compute. reflexivity. Qed.

Lemma accepted_lead_well_typed_witness :
  validate_body plain_email plain_int (PDict jane_payload) = Ok (Instance jane_values)
  /\ Forall2 (fun fd v => conforms (annot fd) v = true) LeadRequest jane_values.
Proof.
  split; [exact jane_accepted|].
  exact (proj2 (accepted_lead_well_typed plain_email plain_int (PDict jane_payload)
                  (Instance jane_values) jane_accepted)).
Defined.

Lemma Lead_units_count_non_negative_witness :
  model_validate plain_email plain_int Lead
    (PDict (<["units_count" := PInt 4]> jane_payload)) =
    Ok (Instance (<[6%nat := PInt 4]> jane_values))
  /\ (getattr Lead (Instance (<[6%nat := PInt 4]> jane_values)) "units_count"
        = Some PNone
      \/ exists z, getattr Lead (Instance (<[6%nat := PInt 4]> jane_values))
                     "units_count" = Some (PInt z) /\ 0 <= z).
Proof.
  assert (model_validate plain_email plain_int Lead
            (PDict (<["units_count" := PInt 4]> jane_payload)) =
          Ok (Instance (<[6%nat := PInt 4]> jane_values))) as Hok
    by (vm_compute; reflexivity).
  split; [exact Hok|].
  exact (proj2 (Lead_units_count_non_negative plain_email plain_int _ _ Hok)).
Defined.

Lemma Lead_is_LeadRequest_with_bound_witness :
  model_validate plain_email plain_int Lead (PDict jane_payload) =
    Ok (Instance jane_values).
Proof.
  apply (Lead_is_LeadRequest_with_bound plain_email plain_int).
  split; [exact jane_accepted|]. left. reflexivity.
Defined.

Lemma dumped_lead_revalidates_witness :
  model_validate plain_email plain_int LeadRequest
    (PDict (list_to_map (model_dump LeadRequest (Instance jane_values)))) =
    Ok (Instance jane_values).
Proof.
  exact (dumped_lead_revalidates plain_email plain_int jane_payload
           (Instance jane_values) plain_email_idempotent jane_accepted).
Defined.

(** The empty object: both required fields are reported. *)
Lemma empty_payload_rejected :
  model_validate plain_email plain_int LeadRequest (PDict ∅) =
    Err [Error [Key "name"] missing; Error [Key "email"] missing].
Proof. vm_compute. reflexivity. Qed.

Lemma all_field_errors_reported_witness :
  [Error [Key "name"] missing; Error [Key "email"] missing] =
    mjoin ((fun fd => errors_of (validate_field plain_email plain_int fd
                                   ((∅ : gmap string pyval) !! fname fd)))
             <$> LeadRequest).
Proof.
  exact (all_field_errors_reported plain_email plain_int ∅ _ empty_payload_rejected).
Defined.

Lemma mixed_tags_rejected :
  validate_body plain_email plain_int (PDict mixed_tags_payload) =
    Err [Error [Key "unit_types"; Index 1] string_type].
Proof. vm_compute. reflexivity. Qed.

Lemma errors_are_located_witness :
  let e := Error [Key "unit_types"; Index 1] string_type in
  err_loc e = []
  \/ exists fd, fd ∈ LeadRequest
       /\ (err_loc e = [Key (fname fd)]
           \/ exists i, annot fd = Optional (List_ Str)
                        /\ e = Error [Key (fname fd); Index i] string_type).
Proof.
  apply (errors_are_located plain_email plain_int (PDict mixed_tags_payload)
           [Error [Key "unit_types"; Index 1] string_type]).
  - exact mixed_tags_rejected.
  - left.
Defined.

Lemma non_string_tag_rejected_witness :
  exists es,
    model_validate plain_email plain_int LeadRequest (PDict mixed_tags_payload)
      = Err es
    /\ Error [Key "unit_types"; Index 1] string_type ∈ es.
Proof.
  apply (non_string_tag_rejected plain_email plain_int mixed_tags_payload
           (Field "unit_types" (Optional (List_ Str)) (Some PNone))
           [PStr "Split"; PInt 3] 1 (PInt 3)).
  - do 5 right. left.
  - reflexivity.
  - reflexivity.
  - reflexivity.
  - reflexivity.
Defined.

Lemma text_fields_kept_verbatim_witness :
  getattr LeadRequest (Instance jane_values) "name" = Some (PStr "Jane Doe")
  /\ getattr LeadRequest (Instance jane_values) "message" = Some PNone.
Proof.
  split.
  - apply (text_fields_kept_verbatim plain_email plain_int jane_payload
             (Instance jane_values) (Field "name" Str None) jane_accepted).
    + left.
    + reflexivity.
  - apply (text_fields_kept_verbatim plain_email plain_int jane_payload
             (Instance jane_values) (Field "message" (Optional Str) (Some PNone))
             jane_accepted).
    + do 10 right. left.
    + reflexivity.
Defined.

Lemma accepted_lead_has_name_and_email_witness :
  exists name address normalized,
    jane_payload !! "name" = Some (PStr name)
    /\ jane_payload !! "email" = Some (PStr address)
    /\ plain_email address = Some normalized
    /\ getattr LeadRequest (Instance jane_values) "name" = Some (PStr name)
    /\ getattr LeadRequest (Instance jane_values) "email" = Some (PStr normalized).
Proof.
  exact (accepted_lead_has_name_and_email plain_email plain_int jane_payload
           (Instance jane_values) jane_accepted).
Defined.

Lemma resubmission_inserts_again_witness :
  let first :=
    run mem_exec (post_api_leads plain_email plain_int (PDict jane_payload))
      (MemStore true []) [] in
  let second :=
    run mem_exec (post_api_leads plain_email plain_int (PDict jane_payload))
      first.1.2 first.2 in
  second.2 =
    [create_document "lead" (model_dump LeadRequest (Instance jane_values));
     create_document "lead" (model_dump LeadRequest (Instance jane_values))].
Proof.
  exact (resubmission_inserts_again plain_email plain_int mem_exec
           (PDict jane_payload) (Instance jane_values) (MemStore true []) []
           jane_accepted).
Defined.

(** Two accepted submissions of one payload leave two records in the
    store, under two identifiers. *)
Example resubmission_two_records :
  let first :=
    run mem_exec (post_api_leads plain_email plain_int (PDict jane_payload))
      (MemStore true []) [] in
  let second :=
    run mem_exec (post_api_leads plain_email plain_int (PDict jane_payload))
      first.1.2 first.2 in
  length (records second.1.2) = 2%nat
  /\ body first.1.1 = JSONObject [("status", PStr "success"); ("id", PStr "0")]
  /\ body second.1.1 = JSONObject [("status", PStr "success"); ("id", PStr "1")].
Proof. vm_compute. repeat split. Qed.


(** A payload without [name] that holds NaN under an undeclared key: the
    422 response cannot be rendered, the answer is the plain 500, and the
    store is not called. *)
Example nan_echo_is_500 :
  model_validate plain_email plain_int LeadRequest (PDict nan_tracked_payload) =
    Err [Error [Key "name"] missing]
  /\ run mem_exec (post_api_leads plain_email plain_int (PDict nan_tracked_payload))
       (MemStore true []) [] =
     (Response 500 (PlainText "Internal Server Error"), MemStore true [], []).
Proof. split; vm_compute; reflexivity. Qed.

Lemma diagnostic_collections_bounded_witness :
  test_database (Imported (Some working_db)) (fun _ => None) !! "collections" =
    Some (DList (take 10 twelve_names))
  /\ test_database (Imported (Some working_db)) (fun _ => None) !! "database" =
       Some (DStr (check_mark ++ lit " Connected & Working")%list).
Proof.
  apply (proj1 (diagnostic_collections_bounded (fun _ => None)
                  (Imported (Some working_db)))
           working_db (DStr (lit "maintenance")) twelve_names);
    reflexivity.
Defined.

(** A database object whose name cannot be read: the response stays "Not
    Connected", lists nothing and shows the text of the exception. *)
Example nameless_db_not_connected :
  test_database (Imported (Some nameless_db)) (fun _ => None)
    !! "connection_status" = Some (DStr (lit "Not Connected"))
  /\ test_database (Imported (Some nameless_db)) (fun _ => None)
       !! "collections" = Some (DList [])
  /\ test_database (Imported (Some nameless_db)) (fun _ => None)
       !! "database" =
     Some (DStr (cross_mark ++ lit " Error: name is not available")%list).
Proof. repeat split; vm_compute; reflexivity. Qed.
